(** * banco_demo: table materialisation and foreign-key reconciliation

    A shallow embedding of [src/main.py] (the configuration-driven
    table writer) and [src/transformation.py] (the re-keying of
    [transacoes_cartao] with keys drawn from [clientes]).

    The Spark engine, the file system and the row generator are
    collaborators of the program: they appear here as explicit oracles,
    and every call the program makes to them is recorded. *)

From Stdlib Require Import List String Ascii ZArith QArith Bool Lia Permutation.
Import ListNotations.

Local Open Scope string_scope.
Local Open Scope list_scope.
Local Open Scope Z_scope.

(** ** Data frames *)

Definition value := string.
Definition row := list value.

Record DataFrame := mkDF { columns : list string; rows : list row }.

(** [df.count()] *)
Definition count (df : DataFrame) : Z := Z.of_nat (List.length (rows df)).

(** Number of columns of that name. *)
Fixpoint occurrences (name : string) (cols : list string) : nat :=
  match cols with
  | [] => 0%nat
  | c :: cs => ((if String.eqb c name then 1 else 0) + occurrences name cs)%nat
  end.

(** Position of the first column of that name. *)
Fixpoint position (name : string) (cols : list string) : nat :=
  match cols with
  | [] => 0%nat
  | c :: cs => if String.eqb c name then 0%nat else S (position name cs)
  end.

(** [x < y] on rationals, as a boolean. *)
Definition Qltb (x y : Q) : bool := (Qnum x * QDen y <? Qnum y * QDen x)%Z.

(** ** [src/transformation.py] *)

Module Transformation.

(** The exceptions the pass can raise. *)
Inductive exn :=
| ZeroDivisionError
| AnalysisException (msg : string).

Definition result (A : Type) : Type := exn + A.

(** What the engine decides at random.  [shuffle] is the row order
    left by [withColumn("repeat", rand()).repartition("repeat")];
    [rand i j] is the draw of [RAND()] when the join condition is
    evaluated on the [i]-th row of [transacoes_cartao] and the [j]-th
    row of [clientes_repeated].  The join is read as SQL states it: an
    inner join keeps the pairs of rows on which the condition holds. *)
Record Engine := mkEngine {
  shuffle : list row -> list row;
  shuffle_perm : forall l, Permutation (shuffle l) l;
  rand : nat -> nat -> Q;
  rand_range : forall i j, (0 <= rand i j /\ rand i j < 1)%Q
}.

(** Resolution of a column reference: it must name exactly one column
    (names are compared as written). *)
Definition resolve (name : string) (df : DataFrame) : result nat :=
  match occurrences name (columns df) with
  | 0%nat => inl (AnalysisException ("cannot resolve " ++ name)%string)
  | 1%nat => inr (position name (columns df))
  | _ => inl (AnalysisException ("ambiguous reference " ++ name)%string)
  end.

(** [df.selectExpr("id_usuario")] *)
Definition selectExpr (name : string) (df : DataFrame) : result DataFrame :=
  match resolve name df with
  | inl e => inl e
  | inr i => inr (mkDF [name] (map (fun r => [nth i r ""]) (rows df)))
  end.

(** [(transacoes_count // clientes_count) + 1], for a non-zero divisor. *)
Definition repetition_factor (transacoes_count clientes_count : Z) : Z :=
  transacoes_count / clientes_count + 1.

(** [[x] * n] on a Python list: [n] copies, none when [n <= 0]. *)
Definition times {A} (x : A) (n : Z) : list A := repeat x (Z.to_nat n).

(** [repeat_clientes(clientes, transacoes_count)].  The [repeat] column
    only orders the rows and is dropped by the projection on
    [id_usuario], so the shuffled frame keeps the columns of [clientes]. *)
Definition repeat_clientes (e : Engine) (clientes : DataFrame)
    (transacoes_count : Z) : result DataFrame :=
  let clientes_count := count clientes in
  if clientes_count <? transacoes_count then
    if clientes_count =? 0 then inl ZeroDivisionError
    else
      let factor := repetition_factor transacoes_count clientes_count in
      let clientes_repeated :=
        mkDF (columns clientes) (shuffle e (rows clientes)) in
      match selectExpr "id_usuario" clientes_repeated with
      | inl err => inl err
      | inr keys =>
          inr (mkDF ["id_usuario"]
                 (flat_map (fun x => times x factor) (rows keys)))
      end
  else inr clientes.

(** The rows of [c] joined to the [i]-th row [t]:
    [ON RAND() < 1.0 / (SELECT COUNT( * ) FROM clientes_repeated)]. *)
Fixpoint join_row (e : Engine) (threshold : Q) (k : nat) (i : nat) (t : row)
    (j : nat) (cs : list row) : list row :=
  match cs with
  | [] => []
  | c :: cs' =>
      (if Qltb (rand e i j) threshold then [t ++ [nth k c ""]] else [])
        ++ join_row e threshold k i t (S j) cs'
  end.

Fixpoint join_rows (e : Engine) (threshold : Q) (k : nat) (i : nat)
    (ts : list row) (cs : list row) : list row :=
  match ts with
  | [] => []
  | t :: ts' =>
      join_row e threshold k i t 0 cs ++ join_rows e threshold k (S i) ts' cs
  end.



(** [ceil(f / d)] as the specification writes it, for [d > 0]. *)
Definition ceil_div (f d : Z) : Z := (f + d - 1) / d.

(** Engines with a constant draw and no reordering. *)
Definition const_range (q : Q) (H0 : Qle_bool 0 q = true)
    (H1 : Qltb q 1 = true) (i j : nat) : (0 <= q /\ q < 1)%Q :=
  conj (proj1 (Qle_bool_iff 0 q) H0) (proj1 (Z.ltb_lt _ _) H1).

Definition constant_engine (q : Q) (H0 : Qle_bool 0 q = true)
    (H1 : Qltb q 1 = true) : Engine :=
  mkEngine (fun l => l) (fun l => Permutation_refl l) (fun _ _ => q)
    (const_range q H0 H1).

Definition engine_zero : Engine := constant_engine 0 eq_refl eq_refl.

Definition clientes_AB : DataFrame := mkDF ["id_usuario"] [["A"]; ["B"]].
Definition clientes_ABC : DataFrame :=
  mkDF ["id_usuario"] [["A"]; ["B"]; ["C"]].

Definition transacoes_2 : DataFrame :=
  mkDF ["id_transacao"; "id_usuario"; "valor"]
       [["t1"; "X"; "10"]; ["t2"; "Y"; "20"]].

End Transformation.


(** ** Python strings *)

(** [s.split(sep)] for a one-character separator: never an empty list. *)
Fixpoint split (sep : ascii) (s : string) : list string :=
  match s with
  | EmptyString => [EmptyString]
  | String c rest =>
      if Ascii.eqb c sep then EmptyString :: split sep rest
      else match split sep rest with
           | [] => [String c EmptyString]
           | hd :: tl => String c hd :: tl
           end
  end.

(** ASCII white space, as [str.isspace] has it. *)
Definition is_space (c : ascii) : bool :=
  let n := nat_of_ascii c in
  ((9 <=? n) && (n <=? 13) || (28 <=? n) && (n <=? 32))%nat.

Fixpoint lstrip (s : string) : string :=
  match s with
  | EmptyString => EmptyString
  | String c rest => if is_space c then lstrip rest else s
  end.

Fixpoint rstrip (s : string) : string :=
  match s with
  | EmptyString => EmptyString
  | String c rest =>
      match rstrip rest with
      | EmptyString => if is_space c then EmptyString else String c EmptyString
      | rest' => String c rest'
      end
  end.

(** [s.strip()] *)
Definition strip (s : string) : string := rstrip (lstrip s).

Definition lower_ascii (c : ascii) : ascii :=
  let n := nat_of_ascii c in
  if ((65 <=? n) && (n <=? 90))%nat then ascii_of_nat (n + 32) else c.

(** [s.lower()] *)
Fixpoint lower (s : string) : string :=
  match s with
  | EmptyString => EmptyString
  | String c rest => String (lower_ascii c) (lower rest)
  end.

Definition upper_ascii (c : ascii) : ascii :=
  let n := nat_of_ascii c in
  if ((97 <=? n) && (n <=? 122))%nat then ascii_of_nat (n - 32) else c.

(** [s.upper()] *)
Fixpoint upper (s : string) : string :=
  match s with
  | EmptyString => EmptyString
  | String c rest => String (upper_ascii c) (upper rest)
  end.

Definition is_digit (c : ascii) : bool :=
  let n := nat_of_ascii c in ((48 <=? n) && (n <=? 57))%nat.

Definition digit (c : ascii) : Z := Z.of_nat (nat_of_ascii c) - 48.

(** The digits of a decimal literal: single underscores may separate
    digits. *)
Fixpoint digits (acc : Z) (after_digit : bool) (s : string) : option Z :=
  match s with
  | EmptyString => if after_digit then Some acc else None
  | String c rest =>
      if is_digit c then digits (10 * acc + digit c) true rest
      else if Ascii.eqb c "_"%char && after_digit then digits acc false rest
      else None
  end.

(** [int(s)] in base ten: surrounding white space, an optional sign, then
    the digits.  [None] stands for [ValueError]. *)
Definition int (s : string) : option Z :=
  match strip s with
  | String "-"%char rest => option_map Z.opp (digits 0 false rest)
  | String "+"%char rest => digits 0 false rest
  | t => digits 0 false t
  end.

(** ** [src/main.py] *)

Module Main.

(** *** Calls to the Spark session *)

Inductive layout :=
| NoLayout
| PartitionBy (col : string)
| BucketBy (num_buckets : Z) (col : string).

Inductive sink :=
| Save (path : string)
| SaveAsTable (name : string).

(** One [df.write ... .options( **write_options) ...] chain: the data
    frame, the layout call made on the writer if any, the dictionary
    given to [options] and the terminal [save] or [saveAsTable]. *)
Record write_call := mkWrite {
  w_df : DataFrame;
  w_layout : layout;
  w_options : list (string * string);
  w_sink : sink
}.

Inductive call :=
| GetOrCreateSession
| Sql (stmt : string)
| TableExists (name : string)
| Write (w : write_call).

(** *** Exceptions *)

Inductive exn :=
| FileNotFoundError (path : string)
| ParsingError (path : string)
| JSONDecodeError (path : string)
| NoSectionError (section : string)
| NoOptionError (opt section : string)
| ValueError (msg : string)
| KeyError (key : string)
| GeneratorError (msg : string)
| SparkError (c : call).

(** *** Log records and the trace *)

Inductive level := INFO | WARNING | ERROR.

(** The messages of [logger.info], [logger.warning] and [logger.error],
    one constructor per format string, with the values it interpolates.
    [logger.debug] records are below the configured level. *)
Inductive message :=
| ConfiguracaoCarregada
| ErroCarregarConfiguracao (e : exn)
| VerificacaoExistencia (nome_tabela : string) (existe : bool)
| ErroVerificarExistencia (nome_tabela : string) (e : exn)
| CarregandoEsquema (nome_tabela schema_path : string)
| EsquemaCarregado (nome_tabela : string)
| Configuracoes (nome_tabela : string) (num_records : Z)
    (particionamento bucketing : bool) (num_buckets : Z)
    (apenas_arquivos : bool) (formato_arquivo : string)
| DadosGerados (nome_tabela : string) (num_records : Z)
| ArquivosCriados (formato nome_tabela : string) (l : layout)
    (output_path : string)
| TabelaEscrita (nome_tabela write_mode : string) (l : layout)
| ErroCriarOuAtualizar (nome_tabela : string) (e : exn)
| SessaoIniciada
| UsandoBanco (database_name : string)
| ProcessandoTabela (tabela : string)
| ErroProcessarTabela (tabela : string) (e : exn)
| ConfiguracaoNaoEncontrada (tabela : string)
| NenhumaTabelaEspecificada
| ErroExecucaoPrincipal (e : exn).

Inductive event :=
| Call (c : call)
| Log (lvl : level) (msg : message).

(** The tables registered in the current database, and everything the
    process has logged or asked of the engine so far, oldest first. *)
Record state := mkState { catalog : list string; trace : list event }.

(** *** The configuration object *)

Definition options := list (string * string).

(** A parsed [configparser.ConfigParser]: the [DEFAULT] section and the
    other sections in file order.  Option names are lower case, values
    are as [get] returns them. *)
Record ConfigParser := mkConfig {
  defaults : options;
  sects : list (string * options)
}.

Fixpoint assoc {A} (k : string) (l : list (string * A)) : option A :=
  match l with
  | [] => None
  | (k', v) :: l' => if String.eqb k' k then Some v else assoc k l'
  end.

(** [config.sections()]: [DEFAULT] is not listed. *)
Definition sections (config : ConfigParser) : list string :=
  map fst (sects config).

(** [x in xs] on a list of strings. *)
Definition mem (x : string) (xs : list string) : bool :=
  existsb (String.eqb x) xs.

(** [config.get(section, option)] *)
Definition get (config : ConfigParser) (section opt : string)
    : exn + string :=
  let in_defaults :=
    match assoc opt (defaults config) with
    | Some v => inr v
    | None => inl (NoOptionError opt section)
    end in
  match assoc section (sects config) with
  | None =>
      if String.eqb section "DEFAULT" then in_defaults
      else inl (NoSectionError section)
  | Some d =>
      match assoc opt d with
      | Some v => inr v
      | None => in_defaults
      end
  end.

(** [config.getint(section, option)] *)
Definition getint (config : ConfigParser) (section opt : string)
    : exn + Z :=
  match get config section opt with
  | inl e => inl e
  | inr v =>
      match int v with
      | Some n => inr n
      | None => inl (ValueError ("invalid literal for int: " ++ v)%string)
      end
  end.

(** [RawConfigParser.BOOLEAN_STATES] *)
Definition BOOLEAN_STATES : list (string * bool) :=
  [("1", true); ("yes", true); ("true", true); ("on", true);
   ("0", false); ("no", false); ("false", false); ("off", false)].

Definition convert_to_boolean (v : string) : exn + bool :=
  match assoc (lower v) BOOLEAN_STATES with
  | Some b => inr b
  | None => inl (ValueError ("Not a boolean: " ++ v)%string)
  end.

(** [config.getboolean(section, option)] *)
Definition getboolean (config : ConfigParser) (section opt : string)
    : exn + bool :=
  match get config section opt with
  | inl e => inl e
  | inr v => convert_to_boolean v
  end.

(** [config.getboolean(section, option, fallback=b)]: the fallback
    covers a missing section or option, not a value that is no boolean. *)
Definition getboolean_fallback (config : ConfigParser)
    (section opt : string) (fallback : bool) : exn + bool :=
  match get config section opt with
  | inl (NoSectionError _) | inl (NoOptionError _ _) => inr fallback
  | inl e => inl e
  | inr v => convert_to_boolean v
  end.

(** [config[section]] *)
Definition getitem (config : ConfigParser) (section : string)
    : exn + string :=
  if String.eqb section "DEFAULT" || mem section (sections config)
  then inr section else inl (KeyError section).

(** [config[section].get(option)]: [None] when the option is absent. *)
Definition proxy_get (config : ConfigParser) (section opt : string)
    : option string :=
  match get config section opt with
  | inr v => Some v
  | inl _ => None
  end.

(** [config[section].get(option, fallback)] *)
Definition proxy_get_or (config : ConfigParser) (section opt : string)
    (fallback : string) : string :=
  match proxy_get config section opt with
  | Some v => v
  | None => fallback
  end.

(** [config[section][option]] *)
Definition proxy_getitem (config : ConfigParser) (section opt : string)
    : exn + string :=
  match get config section opt with
  | inr v => inr v
  | inl _ => inl (KeyError opt)
  end.

(** *** The environment of a run *)

Inductive file_status (A : Type) :=
| Missing
| Malformed
| Contents (a : A).
Arguments Missing {A}.
Arguments Malformed {A}.
Arguments Contents {A} a.

(** What is on disk, what [utils.gerar_dados] returns, the date of the
    run, and whether the engine raises on a given call in a given
    state. *)
Record Env := mkEnv {
  config_file : string -> file_status ConfigParser;
  schema_file : string -> file_status (list string);
  gerar_dados : string -> Z -> exn + list row;
  current_date : value;
  engine_fails : state -> call -> bool
}.

(** *** Computations: state and exceptions *)

Definition M (A : Type) : Type := state -> (exn + A) * state.

Definition ret {A} (a : A) : M A := fun st => (inr a, st).

Definition raise {A} (e : exn) : M A := fun st => (inl e, st).

Definition bind {A B} (m : M A) (k : A -> M B) : M B :=
  fun st =>
    match m st with
    | (inr a, st') => k a st'
    | (inl e, st') => (inl e, st')
    end.

(** [try: m  except Exception as e: h e] *)
Definition try_except {A} (m : M A) (h : exn -> M A) : M A :=
  fun st =>
    match m st with
    | (inl e, st') => h e st'
    | r => r
    end.

Definition lift {A} (r : exn + A) : M A :=
  match r with
  | inl e => raise e
  | inr a => ret a
  end.

Declare Scope prog_scope.
Delimit Scope prog_scope with prog.
Notation "x <- m ;; k" := (bind m (fun x => k))
  (at level 61, m at next level, right associativity) : prog_scope.
Notation "m ;; k" := (bind m (fun _ => k))
  (at level 61, right associativity) : prog_scope.
Local Open Scope prog_scope.

(** [logger.info], [logger.warning], [logger.error] *)
Definition log (lvl : level) (msg : message) : M unit :=
  fun st => (inr tt, mkState (catalog st) (trace st ++ [Log lvl msg])).

(** What a call that succeeds changes: [saveAsTable] registers the
    table. *)
Definition effect (c : call) (tables : list string) : list string :=
  match c with
  | Write w =>
      match w_sink w with
      | SaveAsTable name => if mem name tables then tables else name :: tables
      | Save _ => tables
      end
  | _ => tables
  end.

(** A call to the session: recorded, then it raises or takes effect. *)
Definition spark (env : Env) (c : call) : M unit :=
  fun st =>
    if engine_fails env st c
    then (inl (SparkError c), mkState (catalog st) (trace st ++ [Call c]))
    else (inr tt, mkState (effect c (catalog st)) (trace st ++ [Call c])).

(** Reading the state. *)
Definition gets {A} (f : state -> A) : M A := fun st => (inr (f st), st).

(** [spark.catalog.tableExists(nome_tabela)] *)
Definition tableExists (env : Env) (nome_tabela : string) : M bool :=
  spark env (TableExists nome_tabela) ;;
  gets (fun st => mem nome_tabela (catalog st)).

(** [os.path.join(a, b)] for [a] ending in a slash. *)
Definition path_join (a b : string) : string :=
  match b with
  | String "/"%char _ => b
  | _ => (a ++ b)%string
  end.

(** [spark.createDataFrame(dados, schema=esquema)]: every row has one
    value per field. *)
Definition createDataFrame (dados : list row) (esquema : list string)
    : exn + DataFrame :=
  if forallb (fun r => (List.length r =? List.length esquema)%nat) dados
  then inr (mkDF esquema dados)
  else inl (ValueError "Length of object does not match with length of fields").

Fixpoint replace_col (name : string) (v : value) (cols : list string)
    (r : row) : row :=
  match cols, r with
  | c :: cs, x :: xs =>
      (if String.eqb c name then v else x) :: replace_col name v cs xs
  | _, _ => r
  end.

(** [df.withColumn(name, v)] for a value that is the same on every row:
    a column of that name is replaced, otherwise the column is added
    last. *)
Definition withColumn (name : string) (v : value) (df : DataFrame)
    : DataFrame :=
  if mem name (columns df)
  then mkDF (columns df) (map (replace_col name v (columns df)) (rows df))
  else mkDF (columns df ++ [name]) (map (fun r => r ++ [v]) (rows df)).

(** [carregar_configuracao(config_path)] *)
Definition carregar_configuracao (env : Env) (config_path : string)
    : M ConfigParser :=
  try_except
    (config <-
       match config_file env config_path with
       | Missing => raise (FileNotFoundError config_path)
       | Malformed => raise (ParsingError config_path)
       | Contents c => ret c
       end ;;
     log INFO ConfiguracaoCarregada ;;
     ret config)
    (fun e => log ERROR (ErroCarregarConfiguracao e) ;; raise e).

(** [tabela_existe(spark, nome_tabela)] *)
Definition tabela_existe (env : Env) (nome_tabela : string) : M bool :=
  try_except
    (existe <- tableExists env nome_tabela ;;
     log INFO (VerificacaoExistencia nome_tabela existe) ;;
     ret existe)
    (fun e => log ERROR (ErroVerificarExistencia nome_tabela e) ;; raise e).

(** [f"{base_path}"]: [None] prints as its name. *)
Definition format_opt (o : option string) : string :=
  match o with
  | Some v => v
  | None => "None"
  end.

(** Lines 76 to 88 of [criar_ou_atualizar_tabela]: the branch taken
    when [apenas_arquivos] holds. *)
Definition escrever_arquivos (env : Env) (nome_tabela : string)
    (df : DataFrame) (particionamento bucketing : bool) (num_buckets : Z)
    (formato_arquivo : string) (base_path : option string) : M unit :=
  let output_path := (format_opt base_path ++ nome_tabela)%string in
  let write_options := [("mode", "overwrite"); ("format", formato_arquivo)] in
  if particionamento then
    spark env (Write (mkWrite df (PartitionBy "data_execucao")
                        write_options (Save output_path))) ;;
    log INFO (ArquivosCriados (upper formato_arquivo) nome_tabela
                (PartitionBy "data_execucao") output_path)
  else if bucketing then
    spark env (Write (mkWrite df (BucketBy num_buckets "id_uf")
                        write_options (Save output_path))) ;;
    log INFO (ArquivosCriados (upper formato_arquivo) nome_tabela
                (BucketBy num_buckets "id_uf") output_path)
  else
    spark env (Write (mkWrite df NoLayout write_options (Save output_path))) ;;
    log INFO (ArquivosCriados (upper formato_arquivo) nome_tabela
                NoLayout output_path).

(** Lines 89 to 103 of [criar_ou_atualizar_tabela]: the branch taken
    otherwise. *)
Definition escrever_tabela (env : Env) (nome_tabela : string)
    (df : DataFrame) (particionamento bucketing : bool) (num_buckets : Z)
    : M unit :=
  existe <- tabela_existe env nome_tabela ;;
  let write_mode := if negb existe then "overwrite" else "append" in
  (if String.eqb write_mode "append"
   then spark env (Sql ("REFRESH TABLE " ++ nome_tabela)%string)
   else ret tt) ;;
  let write_options := [("mode", write_mode); ("format", "parquet")] in
  if particionamento then
    spark env (Write (mkWrite df (PartitionBy "data_execucao")
                        write_options (SaveAsTable nome_tabela))) ;;
    log INFO (TabelaEscrita nome_tabela write_mode
                (PartitionBy "data_execucao"))
  else if bucketing then
    spark env (Write (mkWrite df (BucketBy num_buckets "id_uf")
                        write_options (SaveAsTable nome_tabela))) ;;
    log INFO (TabelaEscrita nome_tabela write_mode
                (BucketBy num_buckets "id_uf"))
  else
    spark env (Write (mkWrite df NoLayout write_options
                        (SaveAsTable nome_tabela))) ;;
    log INFO (TabelaEscrita nome_tabela write_mode NoLayout).

(** Lines 44 to 53: the schema of the table. *)
Definition carregar_esquema (env : Env) (nome_tabela : string)
    : M (list string) :=
  let schema_base_path := "/app/mount/" in
  let schema_path :=
    path_join schema_base_path (nome_tabela ++ ".json")%string in
  log INFO (CarregandoEsquema nome_tabela schema_path) ;;
  esquema <-
    match schema_file env schema_path with
    | Missing => raise (FileNotFoundError schema_path)
    | Malformed => raise (JSONDecodeError schema_path)
    | Contents cols => ret cols
    end ;;
  log INFO (EsquemaCarregado nome_tabela) ;;
  ret esquema.

(** Lines 68 to 74: the base path of the storage in use. *)
Definition resolver_base_path (config : ConfigParser) : M (option string) :=
  storage_section <- lift (getitem config "storage") ;;
  let storage := proxy_get_or config storage_section "storage_type" "S3" in
  if String.eqb storage "S3" then
    ret (proxy_get config storage_section "base_path")
  else if String.eqb storage "ADLS" then
    base_path <- lift (proxy_getitem config storage_section "base_path") ;;
    ret (Some base_path)
  else
    raise (ValueError ("Armazenamento nao suportado: " ++ storage)%string).

(** [criar_ou_atualizar_tabela(spark, nome_tabela, config)] *)
Definition criar_ou_atualizar_tabela (env : Env) (nome_tabela : string)
    (config : ConfigParser) : M unit :=
  try_except
    (esquema <- carregar_esquema env nome_tabela ;;
     num_records <- lift (getint config nome_tabela "num_records") ;;
     particionamento <-
       lift (getboolean config nome_tabela "particionamento") ;;
     bucketing <- lift (getboolean config nome_tabela "bucketing") ;;
     num_buckets <- lift (getint config nome_tabela "num_buckets") ;;
     apenas_arquivos <-
       lift (getboolean_fallback config "DEFAULT" "apenas_arquivos" false) ;;
     let formato_arquivo :=
       proxy_get_or config "DEFAULT" "formato_arquivo" "parquet" in
     log INFO (Configuracoes nome_tabela num_records particionamento
                 bucketing num_buckets apenas_arquivos formato_arquivo) ;;
     dados <- lift (gerar_dados env nome_tabela num_records) ;;
     df <- lift (createDataFrame dados esquema) ;;
     let df := withColumn "data_execucao" (current_date env) df in
     log INFO (DadosGerados nome_tabela num_records) ;;
     base_path <- resolver_base_path config ;;
     if apenas_arquivos then
       escrever_arquivos env nome_tabela df particionamento bucketing
         num_buckets formato_arquivo base_path
     else
       escrever_tabela env nome_tabela df particionamento bucketing
         num_buckets)
    (fun e => log ERROR (ErroCriarOuAtualizar nome_tabela e) ;; raise e).

(** The body of [for tabela in tabelas] (lines 133 to 141). *)
Definition processar_tabela (env : Env) (config : ConfigParser)
    (tabela : string) : M unit :=
  let tabela := strip tabela in
  log INFO (ProcessandoTabela tabela) ;;
  if mem tabela (sections config) then
    try_except
      (criar_ou_atualizar_tabela env tabela config)
      (fun e => log ERROR (ErroProcessarTabela tabela e))
  else
    log WARNING (ConfiguracaoNaoEncontrada tabela).

(** [for x in xs: body(x)] *)
Fixpoint for_each {A} (xs : list A) (body : A -> M unit) : M unit :=
  match xs with
  | [] => ret tt
  | x :: xs' => body x ;; for_each xs' body
  end.

(** Lines 111 to 127 of [main()]: configuration, session, database. *)
Definition preparar_sessao (env : Env) : M ConfigParser :=
  let config_path := "/app/mount/config.ini" in
  config <- carregar_configuracao env config_path ;;
  spark env GetOrCreateSession ;;
  log INFO SessaoIniciada ;;
  apenas_arquivos <-
    lift (getboolean_fallback config "DEFAULT" "apenas_arquivos" false) ;;
  (if negb apenas_arquivos then
     let database_name := proxy_get_or config "DEFAULT" "dbname" "bancodemo" in
     spark env (Sql ("CREATE DATABASE IF NOT EXISTS " ++ database_name)%string) ;;
     spark env (Sql ("USE " ++ database_name)%string) ;;
     log INFO (UsandoBanco database_name)
   else ret tt) ;;
  ret config.

(** Lines 130 to 143 of [main()]: the loop over the listed tables. *)
Definition processar_tabelas (env : Env) (config : ConfigParser) : M unit :=
  let tabelas := split "," (proxy_get_or config "DEFAULT" "tabelas" "") in
  match tabelas with
  | _ :: _ => for_each tabelas (processar_tabela env config)
  | [] => log ERROR NenhumaTabelaEspecificada
  end.

(** The [try] block of [main()]. *)
Definition main_try (env : Env) : M unit :=
  config <- preparar_sessao env ;;
  processar_tabelas env config.

(** [main()]: the exit status of the process and the final state.
    [sys.exit(1)] in the handler, status 0 when [main] returns. *)
Definition main (env : Env) (st : state) : Z * state :=
  match main_try env st with
  | (inr _, st') => (0, st')
  | (inl e, st') => (1, snd (log ERROR (ErroExecucaoPrincipal e) st'))
  end.

(** The state of a process that starts on a catalog. *)
Definition start (tables : list string) : state := mkState tables [].

(** The events added between two states of one run. *)
Definition added (st st' : state) : list event :=
  skipn (List.length (trace st)) (trace st').

(** The [mode] and [format] entries of the options given to a writer. *)
Definition write_mode (w : write_call) : option string :=
  assoc "mode" (w_options w).

End Main.

(** ** Sample runs *)

Module Samples.
Import Main.

Definition storage_s3 : string * options :=
  ("storage", [("storage_type", "S3"); ("base_path", "s3a://demo/")]).

Definition table_section (name num_records particionamento bucketing : string)
    : string * options :=
  (name, [("num_records", num_records);
          ("particionamento", particionamento);
          ("bucketing", bucketing);
          ("num_buckets", "4")]).

(** A catalog run over two configured tables and one name without a
    section; [transacoes_cartao] sets both layout flags. *)
Definition config_catalog : ConfigParser :=
  mkConfig
    [("formato_arquivo", "csv");
     ("tabelas", "clientes, transacoes_cartao, fantasma")]
    [table_section "clientes" "3" "false" "false";
     table_section "transacoes_cartao" "2" "true" "true";
     storage_s3].

(** The same tables written as files. *)
Definition config_files : ConfigParser :=
  mkConfig
    (("apenas_arquivos", "true") :: defaults config_catalog)
    (sects config_catalog).

(** A flag that is no boolean. *)
Definition config_bad_flag : ConfigParser :=
  mkConfig
    (("apenas_arquivos", "talvez") :: defaults config_catalog)
    (sects config_catalog).

(** An unsupported storage kind. *)
Definition config_gcs : ConfigParser :=
  mkConfig (defaults config_catalog)
    [table_section "clientes" "3" "false" "false";
     table_section "transacoes_cartao" "2" "true" "true";
     ("storage", [("storage_type", "GCS"); ("base_path", "gs://demo/")])].


Definition schemas (path : string) : file_status (list string) :=
  if String.eqb path "/app/mount/clientes.json"
  then Contents ["id_usuario"; "nome"; "id_uf"]
  else if String.eqb path "/app/mount/transacoes_cartao.json"
  then Contents ["id_transacao"; "id_usuario"; "valor"]
  else Missing.

(** A generator that returns as many rows as asked for. *)
Definition gerar_exato (nome_tabela : string) (num_records : Z)
    : exn + list row :=
  inr (repeat ["a"; "b"; "c"] (Z.to_nat num_records)).


Definition never_fails (st : state) (c : call) : bool := false.

(** Every write is rejected. *)
Definition writes_fail (st : state) (c : call) : bool :=
  match c with
  | Write _ => true
  | _ => false
  end.

Definition env_of (config : ConfigParser)
    (gen : string -> Z -> exn + list row)
    (fails : state -> call -> bool) : Env :=
  mkEnv
    (fun path =>
       if String.eqb path "/app/mount/config.ini" then Contents config
       else Missing)
    schemas gen "2024-01-01" fails.

Definition env_catalog : Env := env_of config_catalog gerar_exato never_fails.
Definition env_files : Env := env_of config_files gerar_exato never_fails.
Definition env_bad_flag : Env :=
  env_of config_bad_flag gerar_exato never_fails.
Definition env_gcs : Env := env_of config_gcs gerar_exato never_fails.

Definition df_transacoes : DataFrame :=
  mkDF ["id_transacao"; "id_usuario"; "valor"; "data_execucao"]
       [["a"; "b"; "c"; "2024-01-01"]; ["a"; "b"; "c"; "2024-01-01"]].

(** The write of [transacoes_cartao] into a catalog that has the table. *)
Definition write_transacoes_append : write_call :=
  mkWrite df_transacoes (PartitionBy "data_execucao")
    [("mode", "append"); ("format", "parquet")]
    (SaveAsTable "transacoes_cartao").



End Samples.

(** ** Reasoning about runs *)

Module Runs.
Import Main.

(** Every outcome of [m] from [st] satisfies [Q]. *)
Definition post {A} (m : M A) (st : state)
    (Q : exn + A -> state -> Prop) : Prop :=
  forall r st', m st = (r, st') -> Q r st'.

(** Any record or call except the "no table specified" error. *)
Definition allowed (e : event) : Prop :=
  e <> Log ERROR NenhumaTabelaEspecificada.

(** [m] only adds events to the trace, all of them [allowed]. *)
Definition emits {A} (m : M A) : Prop :=
  forall st r st',
    m st = (r, st') ->
    exists evs, trace st' = trace st ++ evs /\ Forall allowed evs.

(** The layout chosen by [if particionamento: ... elif bucketing: ...
    else: ...], the same chain in both branches of the writer. *)
Definition layout_of (particionamento bucketing : bool) (num_buckets : Z)
    : layout :=
  if particionamento then PartitionBy "data_execucao"
  else if bucketing then BucketBy num_buckets "id_uf"
  else NoLayout.

(** What is known of a write found in the trace of one call of
    [criar_ou_atualizar_tabela] started in [st] and ended in [st']. *)
Definition write_facts (env : Env) (nome_tabela : string)
    (config : ConfigParser) (st st' : state) (w : write_call) : Prop :=
  exists esquema num_records particionamento bucketing num_buckets
         apenas_arquivos dados df,
    schema_file env (path_join "/app/mount/" (nome_tabela ++ ".json")%string)
      = Contents esquema
    /\ getint config nome_tabela "num_records" = inr num_records
    /\ getboolean config nome_tabela "particionamento" = inr particionamento
    /\ getboolean config nome_tabela "bucketing" = inr bucketing
    /\ getint config nome_tabela "num_buckets" = inr num_buckets
    /\ getboolean_fallback config "DEFAULT" "apenas_arquivos" false
        = inr apenas_arquivos
    /\ gerar_dados env nome_tabela num_records = inr dados
    /\ createDataFrame dados esquema = inr df
    /\ w_df w = withColumn "data_execucao" (current_date env) df
    /\ w_layout w = layout_of particionamento bucketing num_buckets
    /\ (if apenas_arquivos then
          w_options w
          = [("mode", "overwrite");
             ("format",
              proxy_get_or config "DEFAULT" "formato_arquivo" "parquet")]
          /\ exists path, w_sink w = Save path
        else
          w_options w
          = [("mode",
              if mem nome_tabela (catalog st) then "append" else "overwrite");
             ("format", "parquet")]
          /\ w_sink w = SaveAsTable nome_tabela
          /\ (mem nome_tabela (catalog st) = true ->
              exists before after,
                added st st' = before ++ Call (Write w) :: after
                /\ In (Call (Sql ("REFRESH TABLE " ++ nome_tabela)%string))
                     before)).

End Runs.

(** ** Loading the tables, and what a run leaves in its trace *)

Module Tables.
Import Transformation.

(** The values of one column, row by row. *)
Definition column_values (name : string) (df : DataFrame) : list value :=
  map (fun r => nth (position name (columns df)) r "") (rows df).

(** A table or view of the session, by name. *)
Definition table (tables : list (string * DataFrame)) (name : string)
    : result DataFrame :=
  match Main.assoc name tables with
  | Some df => inr df
  | None => inl (AnalysisException ("Table or view not found: " ++ name)%string)
  end.

(** [load_tables(spark)]: [SELECT id_usuario FROM clientes] and
    [SELECT * FROM transacoes_cartao], analysed in this order. *)
Definition load_tables (tables : list (string * DataFrame))
    : result (DataFrame * DataFrame) :=
  match table tables "clientes" with
  | inl err => inl err
  | inr c =>
      match selectExpr "id_usuario" c with
      | inl err => inl err
      | inr clientes =>
          match table tables "transacoes_cartao" with
          | inl err => inl err
          | inr transacoes_cartao => inr (clientes, transacoes_cartao)
          end
      end
  end.

(** A session with five clients and the two sample transactions. *)
Definition tabelas_demo : list (string * DataFrame) :=
  [("clientes",
    mkDF ["id_usuario"; "nome"]
         [["A"; "Ana"]; ["B"; "Bia"]; ["C"; "Caio"]; ["D"; "Davi"];
          ["E"; "Eva"]]);
   ("transacoes_cartao", transacoes_2)].

End Tables.

Module Observations.
Import Main.

(** The writes asked of the engine, oldest first. *)
Definition writes (evs : list event) : list write_call :=
  flat_map (fun e => match e with Call (Write w) => [w] | _ => [] end) evs.


(** The names announced by [Processando tabela], oldest first. *)
Definition processadas (evs : list event) : list string :=
  flat_map (fun e =>
              match e with
              | Log INFO (ProcessandoTabela t) => [t]
              | _ => []
              end) evs.

(** Every outcome of [m] relates the state before to the state after. *)
Definition steps (R : state -> state -> Prop) {A} (m : M A) : Prop :=
  forall st r st', m st = (r, st') -> R st st'.

(** The trace grew by events that all satisfy [P]. *)
Definition adds (P : event -> Prop) (st st' : state) : Prop :=
  exists evs, trace st' = trace st ++ evs /\ Forall P evs.


(** Events of a run that leaves the catalog alone: records, the start
    of the session, and writes to a path. *)
Definition files_only (e : event) : Prop :=
  match e with
  | Log _ _ => True
  | Call GetOrCreateSession => True
  | Call (Write w) => exists path, w_sink w = Save path
  | Call _ => False
  end.

Definition not_processando (e : event) : Prop :=
  forall t, e <> Log INFO (ProcessandoTabela t).

Definition not_call (e : event) : Prop :=
  forall c, e <> Call c.

Definition not_write (e : event) : Prop :=
  forall w, e <> Call (Write w).







(** The catalog is as it was and the trace grew by events satisfying [P]. *)
Definition unchanged (P : event -> Prop) (st st' : state) : Prop :=
  catalog st' = catalog st /\ adds P st st'.

(** Neither the announcement of a table nor a write. *)
Definition startup_event (e : event) : Prop :=
  not_processando e /\ not_write e.




End Observations.

(** * Properties of [src/transformation.py] *)

Section TransformationFacts.
Import Transformation.

Lemma occurrences_single (name : string) :
  occurrences name [name] = 1%nat /\ position name [name] = 0%nat.
Proof. simpl. rewrite String.eqb_refl. split; reflexivity. Qed.

Lemma resolve_single (name : string) (df : DataFrame) :
  columns df = [name] -> resolve name df = inr 0%nat.
Proof.
  intros Hc. unfold resolve. rewrite Hc.
  destruct (occurrences_single name) as [-> ->]. reflexivity.
Qed.

Lemma length_flat_times {A} (l : list A) (n : Z) :
  List.length (flat_map (fun x => times x n) l)
  = (List.length l * Z.to_nat n)%nat.
Proof.
  induction l as [|x l IH]; simpl; [reflexivity|].
  rewrite length_app, IH. unfold times. rewrite repeat_length. reflexivity.
Qed.



Lemma join_rows_nil_left (e : Engine) (q : Q) (k i : nat) (cs : list row) :
  join_rows e q k i [] cs = [].
Proof. reflexivity. Qed.



(** It returns every pair when every draw is below the threshold. *)
Lemma join_row_all (e : Engine) (q : Q) (k i : nat) (t : row) (j : nat)
    (cs : list row) :
  (forall a b, Qltb (rand e a b) q = true) ->
  List.length (join_row e q k i t j cs) = List.length cs.
Proof.
  intros Hq. revert j. induction cs as [|c cs IH]; intros j;
    cbn [join_row]; [reflexivity|].
  rewrite Hq. cbn [app List.length]. now rewrite IH.
Qed.

Lemma join_rows_all (e : Engine) (q : Q) (k i : nat) (ts cs : list row) :
  (forall a b, Qltb (rand e a b) q = true) ->
  List.length (join_rows e q k i ts cs)
  = (List.length ts * List.length cs)%nat.
Proof.
  intros Hq. revert i. induction ts as [|t ts IH]; intros i;
    cbn [join_rows]; [reflexivity|].
  rewrite length_app, IH, join_row_all by exact Hq.
  change (List.length (t :: ts)) with (S (List.length ts)).
  rewrite Nat.mul_succ_l. lia.
Qed.

(** Below the dimension size nothing is replicated. *)
Lemma repeat_clientes_enough (e : Engine) (clientes : DataFrame) (f : Z) :
  f <= count clientes -> repeat_clientes e clientes f = inr clientes.
Proof.
  intros H. unfold repeat_clientes.
  destruct (Z.ltb_spec (count clientes) f); [lia | reflexivity].
Qed.

(** Above it every key is taken [repetition_factor] times. *)
Lemma repeat_clientes_inflates (e : Engine) (clientes : DataFrame) (f : Z) :
  columns clientes = ["id_usuario"] ->
  0 < count clientes < f ->
  exists pool,
    repeat_clientes e clientes f = inr pool
    /\ columns pool = ["id_usuario"]
    /\ count pool = count clientes * repetition_factor f (count clientes).
Proof.
  intros Hc [Hd Hf]. unfold repeat_clientes.
  destruct (Z.ltb_spec (count clientes) f); [|lia].
  destruct (Z.eqb_spec (count clientes) 0); [lia|].
  unfold selectExpr. rewrite (resolve_single "id_usuario") by exact Hc.
  eexists. split; [reflexivity|]. split; [reflexivity|].
  unfold count at 1. cbn [rows].
  rewrite length_flat_times, length_map. cbn [rows].
  pose proof (Permutation_length (shuffle_perm e (rows clientes))) as L.
  unfold row, value in *. rewrite L.
  assert (0 <= repetition_factor f (count clientes)).
  { unfold repetition_factor.
    assert (0 <= f / count clientes) by (apply Z.div_pos; lia). lia. }
  unfold count in *. rewrite Nat2Z.inj_mul, Z2Nat.id by assumption.
  reflexivity.
Qed.

Lemma ceil_div_inexact (f d : Z) :
  0 < d -> f mod d <> 0 -> ceil_div f d = f / d + 1.
Proof.
  intros Hd Hm. unfold ceil_div.
  pose proof (Z.div_mod f d ltac:(lia)) as E.
  pose proof (Z.mod_pos_bound f d Hd) as B.
  symmetry. apply (Z.div_unique _ _ _ (f mod d - 1)); lia.
Qed.

Lemma ceil_div_exact (f d : Z) :
  0 < d -> f mod d = 0 -> ceil_div f d = f / d.
Proof.
  intros Hd Hm. unfold ceil_div.
  pose proof (Z.div_mod f d ltac:(lia)) as E.
  symmetry. apply (Z.div_unique _ _ _ (d - 1)); lia.
Qed.

End TransformationFacts.

Section TransformationClaims.
Import Transformation.


(** C3, as stated, fails when the dimension size divides the fact size:
    for two keys and four transactions the pool holds each key three
    times, and [ceil(4 / 2)] is two. *)
Lemma repetition_factor_divisible_counterexample :
  count clientes_AB = 2
  /\ (exists pool,
        repeat_clientes engine_zero clientes_AB 4 = inr pool
        /\ count pool = count clientes_AB * 3)
  /\ repetition_factor 4 2 = 3
  /\ ceil_div 4 2 = 2
  /\ repetition_factor 4 2 <> ceil_div 4 2.
Proof.
  split; [reflexivity|].
  split; [eexists; split; [vm_compute; reflexivity | reflexivity]|].
  repeat split; try reflexivity. vm_compute. discriminate.
Qed.

(** C3, amended.  For a dimension table of [d > 0] keys and a fact count
    [f > d], the pool holds every key [f / d + 1] times (floor division);
    this is [ceil(f / d)] when [d] does not divide [f] and
    [ceil(f / d) + 1] when it does.  For [f <= d] the pool is the
    dimension table itself.  For [d = 3] and [f = 10] the factor is 4. *)
Theorem repetition_factor_floor_plus_one
    (e : Engine) (clientes : DataFrame) (f : Z) :
  columns clientes = ["id_usuario"] ->
  0 < count clientes ->
  let d := count clientes in
  (d < f ->
     (exists pool,
        repeat_clientes e clientes f = inr pool
        /\ count pool = d * repetition_factor f d)
     /\ repetition_factor f d = f / d + 1
     /\ (f mod d <> 0 -> repetition_factor f d = ceil_div f d)
     /\ (f mod d = 0 -> repetition_factor f d = ceil_div f d + 1))
  /\ (f <= d -> repeat_clientes e clientes f = inr clientes)
  /\ repetition_factor 10 3 = 4.
Proof.
  intros Hc Hd d. split; [|split].
  - intros Hf. split; [|split; [|split]].
    + destruct (repeat_clientes_inflates e clientes f Hc (conj Hd Hf))
        as (pool & Hp & _ & Hn).
      exists pool. split; assumption.
    + reflexivity.
    + intros Hm. unfold repetition_factor.
      now rewrite ceil_div_inexact.
    + intros Hm. unfold repetition_factor.
      now rewrite ceil_div_exact.
  - apply repeat_clientes_enough.
  - reflexivity.
Qed.

Lemma repetition_factor_floor_plus_one_witness :
  (exists pool,
     repeat_clientes engine_zero clientes_ABC 10 = inr pool
     /\ count pool = 3 * repetition_factor 10 3)
  /\ repetition_factor 10 3 = ceil_div 10 3.
Proof.
  pose proof (repetition_factor_floor_plus_one engine_zero clientes_ABC 10
                eq_refl eq_refl) as [H _].
  destruct (H eq_refl) as (Hp & _ & Hc & _).
  split; [exact Hp | apply Hc; vm_compute; discriminate].
Defined.





End TransformationClaims.

(** * Properties of [src/main.py] *)

Section RunRules.
Import Main Runs.
Local Open Scope prog_scope.

Lemma skipn_length_app {A} (l l' : list A) :
  skipn (List.length l) (l ++ l') = l'.
Proof. induction l; simpl; auto. Qed.

Lemma added_app (st st' : state) (evs : list event) :
  trace st' = trace st ++ evs -> added st st' = evs.
Proof. intros H. unfold added. rewrite H. apply skipn_length_app. Qed.

Lemma added_mk (st : state) (c : list string) (evs : list event) :
  added st (mkState c (trace st ++ evs)) = evs.
Proof. apply added_app. reflexivity. Qed.

Lemma lift_run {A} (x : exn + A) (st : state) : lift x st = (x, st).
Proof. destruct x; reflexivity. Qed.

Context {A B : Type}.

Lemma post_ret (a : A) st (Q : exn + A -> state -> Prop) :
  Q (inr a) st -> post (ret a) st Q.
Proof. intros H r st' E. inversion E; subst. exact H. Qed.

Lemma post_raise (e : exn) st (Q : exn + A -> state -> Prop) :
  Q (inl e) st -> post (raise e) st Q.
Proof. intros H r st' E. inversion E; subst. exact H. Qed.

Lemma post_lift (x : exn + A) st (Q : exn + A -> state -> Prop) :
  Q x st -> post (lift x) st Q.
Proof. intros H r st' E. rewrite lift_run in E. inversion E; subst. exact H. Qed.

Lemma post_gets (f : state -> A) st (Q : exn + A -> state -> Prop) :
  Q (inr (f st)) st -> post (gets f) st Q.
Proof. intros H r st' E. inversion E; subst. exact H. Qed.

Lemma post_bind (m : M A) (k : A -> M B) st (Q : exn + B -> state -> Prop) :
  post m st (fun r st1 =>
               match r with
               | inr a => post (k a) st1 Q
               | inl e => Q (inl e) st1
               end) ->
  post (bind m k) st Q.
Proof.
  intros H r st' E. unfold bind in E.
  destruct (m st) as [[e|a] st1] eqn:Em; specialize (H _ _ Em); simpl in H.
  - inversion E; subst. exact H.
  - exact (H _ _ E).
Qed.

Lemma post_try_except (m : M A) (h : exn -> M A) st
    (Q : exn + A -> state -> Prop) :
  post m st (fun r st1 =>
               match r with
               | inr a => Q (inr a) st1
               | inl e => post (h e) st1 Q
               end) ->
  post (try_except m h) st Q.
Proof.
  intros H r st' E. unfold try_except in E.
  destruct (m st) as [[e|a] st1] eqn:Em; specialize (H _ _ Em); simpl in H.
  - exact (H _ _ E).
  - inversion E; subst. exact H.
Qed.

End RunRules.

Section RunRulesUnit.
Import Main Runs.

Lemma post_log (lvl : level) (msg : message) st
    (Q : exn + unit -> state -> Prop) :
  Q (inr tt) (mkState (catalog st) (trace st ++ [Log lvl msg])) ->
  post (log lvl msg) st Q.
Proof. intros H r st' E. inversion E; subst. exact H. Qed.

Lemma post_spark (env : Env) (c : call) st
    (Q : exn + unit -> state -> Prop) :
  (engine_fails env st c = true ->
   Q (inl (SparkError c)) (mkState (catalog st) (trace st ++ [Call c]))) ->
  (engine_fails env st c = false ->
   Q (inr tt) (mkState (effect c (catalog st)) (trace st ++ [Call c]))) ->
  post (spark env c) st Q.
Proof.
  intros H1 H2 r st' E. unfold spark in E.
  destruct (engine_fails env st c); inversion E; subst; auto.
Qed.

End RunRulesUnit.

(** One step of symbolic execution of a goal [post m st Q]. *)
Ltac run_step :=
  lazymatch goal with
  | |- Runs.post (Main.bind _ _) _ _ => apply post_bind
  | |- Runs.post (Main.try_except _ _) _ _ => apply post_try_except
  | |- Runs.post (Main.ret _) _ _ => apply post_ret
  | |- Runs.post (Main.raise _) _ _ => apply post_raise
  | |- Runs.post (Main.lift _) _ _ => apply post_lift
  | |- Runs.post (Main.gets _) _ _ => apply post_gets
  | |- Runs.post (Main.log _ _) _ _ => apply post_log
  | |- Runs.post (Main.spark _ _) _ _ => apply post_spark; intros ?
  | |- Runs.post (if String.eqb (if negb (Main.mem ?n ?c) then _ else _) _
                   then _ else _) _ _ =>
      destruct (Main.mem n c) eqn:?; cbn [negb]
  | |- Runs.post (if String.eqb "append" "append" then _ else _) _ _ =>
      change (String.eqb "append" "append") with true
  | |- Runs.post (if String.eqb "overwrite" "append" then _ else _) _ _ =>
      change (String.eqb "overwrite" "append") with false
  | |- Runs.post (if ?b then _ else _) _ _ => destruct b eqn:?
  | |- Runs.post (match ?x with _ => _ end) _ _ => destruct x eqn:?
  | |- match ?x with _ => _ end => destruct x eqn:?
  end; cbv beta iota zeta;
  cbn [Main.catalog Main.trace Main.effect Main.w_sink].

Ltac run := repeat run_step.

(** The events added so far, as a list. *)
Ltac added_list :=
  rewrite <- ?app_assoc; cbn [app];
  try rewrite added_mk.

(** A membership in an explicit list of events, case by case. *)
Ltac in_cases H :=
  cbn [In] in H;
  repeat (destruct H as [H|H]; [try discriminate H|]);
  try contradiction.

(** The events before a given one in an explicit list. *)
Ltac split_before n :=
  lazymatch goal with
  | |- exists before after, ?l = _ /\ _ =>
      exists (firstn n l), (skipn (S n) l);
      cbn [firstn skipn]; split;
      [reflexivity | cbn [In]; repeat (first [left; reflexivity | right])]
  end.

Section Materialisation.
Import Main Runs.
Variables (env : Env) (nome_tabela : string) (config : ConfigParser).

(** Every write recorded during one call comes from the one writer
    chain the call reaches, with the settings read from [config]. *)
Lemma criar_ou_atualizar_tabela_writes (st : state) :
  post (criar_ou_atualizar_tabela env nome_tabela config) st
    (fun r st' =>
       forall w, In (Call (Write w)) (added st st') ->
                 write_facts env nome_tabela config st st' w).
Proof.
  unfold criar_ou_atualizar_tabela, carregar_esquema, resolver_base_path,
    escrever_arquivos, escrever_tabela, tabela_existe, tableExists.
  cbv zeta. run.
  all: intros w Hin; pose proof Hin as Hin'; revert Hin'; added_list;
    intros Hin'; in_cases Hin'.
  all: injection Hin' as <-.
  all: unfold write_facts; do 8 eexists.
  all: do 10 (split; [first [eassumption | reflexivity]|]).
  all: cbv beta iota.
  all: try (split; [reflexivity | eexists; reflexivity]).
  all: try match goal with H : mem _ _ = _ |- _ => rewrite H end.
  all: split; [reflexivity|split; [reflexivity|]].
  all: try (intros; discriminate).
  all: intros _; added_list; split_before 7%nat.
Qed.




End Materialisation.

Import Main Runs Samples.











Section EmitRules.
Local Open Scope prog_scope.

Lemma emits_here {A} (m : M A) :
  (forall st, exists r, m st = (r, st)) -> emits m.
Proof.
  intros H st r st' E. destruct (H st) as [r' E']. rewrite E' in E.
  inversion E; subst. exists []. rewrite app_nil_r. split; constructor.
Qed.

Lemma emits_ret {A} (a : A) : emits (ret a).
Proof. apply emits_here. intros st. now exists (inr a). Qed.

Lemma emits_raise {A} (e : exn) : emits (@raise A e).
Proof. apply emits_here. intros st. now exists (inl e). Qed.

Lemma emits_lift {A} (x : exn + A) : emits (lift x).
Proof. destruct x; [apply emits_raise | apply emits_ret]. Qed.

Lemma emits_gets {A} (f : state -> A) : emits (gets f).
Proof. apply emits_here. intros st. now exists (inr (f st)). Qed.

Lemma emits_log (lvl : level) (msg : message) :
  allowed (Log lvl msg) -> emits (log lvl msg).
Proof.
  intros H st r st' E. inversion E; subst. cbn [trace].
  exists [Log lvl msg]. split; [reflexivity | repeat constructor; exact H].
Qed.

Lemma emits_spark (env : Env) (c : call) : emits (spark env c).
Proof.
  intros st r st' E. unfold spark in E. exists [Call c].
  destruct (engine_fails env st c); inversion E; subst; cbn [trace];
    (split; [reflexivity | repeat constructor; discriminate]).
Qed.

Lemma emits_bind {A B} (m : M A) (k : A -> M B) :
  emits m -> (forall a, emits (k a)) -> emits (bind m k).
Proof.
  intros Hm Hk st r st' E. unfold bind in E.
  destruct (m st) as [[e|a] st1] eqn:Em;
    destruct (Hm _ _ _ Em) as (evs & Ht & Hf).
  - inversion E; subst. exists evs. split; assumption.
  - destruct (Hk a _ _ _ E) as (evs' & Ht' & Hf').
    exists (evs ++ evs'). split.
    + rewrite Ht', Ht. now rewrite app_assoc.
    + apply Forall_app. split; assumption.
Qed.

Lemma emits_try_except {A} (m : M A) (h : exn -> M A) :
  emits m -> (forall e, emits (h e)) -> emits (try_except m h).
Proof.
  intros Hm Hh st r st' E. unfold try_except in E.
  destruct (m st) as [[e|a] st1] eqn:Em;
    destruct (Hm _ _ _ Em) as (evs & Ht & Hf).
  - destruct (Hh e _ _ _ E) as (evs' & Ht' & Hf').
    exists (evs ++ evs'). split.
    + rewrite Ht', Ht. now rewrite app_assoc.
    + apply Forall_app. split; assumption.
  - inversion E; subst. exists evs. split; assumption.
Qed.


End EmitRules.

(** One step of a proof that a computation only emits allowed events. *)
Ltac emit_step :=
  lazymatch goal with
  | |- Runs.emits (Main.bind _ _) => apply emits_bind; [|intros ?]
  | |- Runs.emits (Main.try_except _ _) => apply emits_try_except; [|intros ?]
  | |- Runs.emits (Main.ret _) => apply emits_ret
  | |- Runs.emits (Main.raise _) => apply emits_raise
  | |- Runs.emits (Main.lift _) => apply emits_lift
  | |- Runs.emits (Main.gets _) => apply emits_gets
  | |- Runs.emits (Main.log _ _) => apply emits_log; discriminate
  | |- Runs.emits (Main.spark _ _) => apply emits_spark
  | |- Runs.emits (if ?b then _ else _) => destruct b
  | |- Runs.emits (match ?x with _ => _ end) => destruct x
  end.

Section MainLoop.
Variable env : Env.
Local Open Scope prog_scope.

Lemma split_nonempty (sep : ascii) (s : string) : split sep s <> [].
Proof.
  destruct s as [|c s]; cbn [split]; [discriminate|].
  destruct (Ascii.eqb c sep); [discriminate|].
  destruct (split sep s); discriminate.
Qed.

Lemma emits_criar_ou_atualizar_tabela nome_tabela config :
  emits (criar_ou_atualizar_tabela env nome_tabela config).
Proof.
  unfold criar_ou_atualizar_tabela, carregar_esquema, resolver_base_path,
    escrever_arquivos, escrever_tabela, tabela_existe, tableExists.
  cbv zeta. repeat emit_step.
Qed.



Lemma emits_preparar_sessao : emits (preparar_sessao env).
Proof.
  unfold preparar_sessao, carregar_configuracao. cbv zeta.
  repeat emit_step.
Qed.


(** The loop body never raises. *)
Lemma processar_tabela_returns config tabela st :
  exists st', processar_tabela env config tabela st = (inr tt, st').
Proof.
  unfold processar_tabela, bind, try_except, log. cbv zeta.
  destruct (mem (strip tabela) (sections config)); [|eexists; reflexivity].
  match goal with
  | |- context [criar_ou_atualizar_tabela ?a ?b ?c ?s] =>
      destruct (criar_ou_atualizar_tabela a b c s) as [[e|[]] st1]
  end; eexists; reflexivity.
Qed.

(** Nor does the loop. *)
Lemma for_each_processar_returns config tabelas st :
  exists st',
    for_each tabelas (processar_tabela env config) st = (inr tt, st').
Proof.
  revert st. induction tabelas as [|t ts IH]; intros st; cbn [for_each].
  - eexists; reflexivity.
  - unfold bind.
    destruct (processar_tabela_returns config t st) as [st1 ->].
    apply IH.
Qed.

Lemma processar_tabelas_returns config st :
  exists st', processar_tabelas env config st = (inr tt, st').
Proof.
  unfold processar_tabelas. cbv zeta.
  destruct (split "," (proxy_get_or config "DEFAULT" "tabelas" "")) eqn:E.
  - exfalso. exact (split_nonempty _ _ E).
  - apply for_each_processar_returns.
Qed.

(** The exit status is decided by lines 111 to 127 alone. *)
Lemma main_exit_status st :
  match preparar_sessao env st with
  | (inr _, _) => fst (main env st) = 0
  | (inl _, _) => fst (main env st) = 1
  end.
Proof.
  unfold main, main_try, bind.
  destruct (preparar_sessao env st) as [[e|config] st1]; [reflexivity|].
  destruct (processar_tabelas_returns config st1) as [st2 ->].
  reflexivity.
Qed.

End MainLoop.






(** * Further properties of [src/transformation.py] *)

Section TransformationMore.
Import Transformation Tables.

Lemma floor_plus_one_covers (f d : Z) : 0 < d -> f < d * (f / d + 1).
Proof.
  intros Hd. pose proof (Z.div_mod f d ltac:(lia)).
  pose proof (Z.mod_pos_bound f d Hd). lia.
Qed.

Lemma pool_covers (e : Engine) (clientes : DataFrame)
    (f : Z) :
  columns clientes = ["id_usuario"] ->
  0 < count clientes ->
  exists pool,
    repeat_clientes e clientes f = inr pool
    /\ columns pool = ["id_usuario"]
    /\ f <= count pool
    /\ (count clientes < f -> f < count pool).
Proof.
  intros Hc Hd. destruct (Z.lt_ge_cases (count clientes) f) as [Hf|Hf].
  - destruct (repeat_clientes_inflates e clientes f Hc (conj Hd Hf))
      as (pool & Hp & Hcp & Hn).
    exists pool. pose proof (floor_plus_one_covers f (count clientes) Hd).
    unfold repetition_factor in Hn. repeat split; try assumption; lia.
  - exists clientes. rewrite repeat_clientes_enough by exact Hf.
    repeat split; try assumption; lia.
Qed.

(** X1.  For a dimension table with the one column [id_usuario] and at
    least one row, [repeat_clientes] never raises, returns a pool with
    that one column, and the pool has at least [transacoes_count] rows;
    strictly more when the dimension table was smaller. *)
Theorem repeat_clientes_pool_covers (e : Engine) (clientes : DataFrame)
    (f : Z) :
  columns clientes = ["id_usuario"] ->
  0 < count clientes ->
  exists pool,
    repeat_clientes e clientes f = inr pool
    /\ columns pool = ["id_usuario"]
    /\ f <= count pool
    /\ (count clientes < f -> f < count pool).
Proof. exact (pool_covers e clientes f). Qed.

Lemma repeat_clientes_pool_covers_witness :
  exists pool,
    repeat_clientes engine_zero clientes_ABC 10 = inr pool
    /\ columns pool = ["id_usuario"]
    /\ 10 <= count pool
    /\ (count clientes_ABC < 10 -> 10 < count pool).
Proof.
  apply (repeat_clientes_pool_covers engine_zero clientes_ABC 10);
    reflexivity.
Defined.

Lemma map_flat_map {A B C} (f : A -> list B) (g : B -> C) (l : list A) :
  map g (flat_map f l) = flat_map (fun x => map g (f x)) l.
Proof.
  induction l as [|x l IH]; cbn [flat_map map]; [reflexivity|].
  now rewrite map_app, IH.
Qed.

Lemma count_occ_flat_repeat (l : list string) (n : nat) (k : string) :
  count_occ string_dec (flat_map (fun x => repeat x n) l) k
  = (n * count_occ string_dec l k)%nat.
Proof.
  induction l as [|x l IH]; cbn [flat_map count_occ]; [lia|].
  rewrite count_occ_app, IH.
  destruct (string_dec x k) as [->|Hne].
  - rewrite count_occ_repeat_eq by reflexivity. lia.
  - rewrite count_occ_repeat_neq by congruence. lia.
Qed.

Lemma pool_keys (n : Z) (l : list (list string)) :
  map (fun r => nth 0 r "")
      (flat_map (fun x => times x n) (map (fun r => [nth 0 r ""]) l))
  = flat_map (fun k => repeat k (Z.to_nat n)) (map (fun r => nth 0 r "") l).
Proof.
  induction l as [|r l IH]; cbn [map flat_map]; [reflexivity|].
  rewrite map_app, IH. unfold times. now rewrite map_repeat.
Qed.

(** The key column of the pool built above the dimension size. *)
Lemma inflated_keys (e : Engine) (clientes pool : DataFrame) (f : Z) :
  columns clientes = ["id_usuario"] ->
  count clientes < f ->
  repeat_clientes e clientes f = inr pool ->
  column_values "id_usuario" pool
  = flat_map (fun k => repeat k (Z.to_nat (repetition_factor f (count clientes))))
      (map (fun r => nth 0 r "") (shuffle e (rows clientes))).
Proof.
  intros Hc Hf Hp. unfold repeat_clientes in Hp.
  destruct (Z.ltb_spec (count clientes) f); [|lia].
  destruct (Z.eqb_spec (count clientes) 0); [discriminate|].
  unfold selectExpr in Hp.
  rewrite (resolve_single "id_usuario") in Hp by exact Hc.
  inversion Hp; subst pool; clear Hp.
  unfold column_values. cbn [rows columns position String.eqb Ascii.eqb Bool.eqb].
  apply pool_keys.
Qed.

Lemma pool_count_occ (e : Engine)
    (clientes pool : DataFrame) (f : Z) (k : value) :
  columns clientes = ["id_usuario"] ->
  repeat_clientes e clientes f = inr pool ->
  count_occ string_dec (column_values "id_usuario" pool) k
  = Nat.mul
      (if count clientes <? f
       then Z.to_nat (repetition_factor f (count clientes)) else 1%nat)
      (count_occ string_dec (column_values "id_usuario" clientes) k).
Proof.
  intros Hc Hp. destruct (Z.ltb_spec (count clientes) f) as [Hf|Hf].
  - rewrite (inflated_keys e clientes pool f Hc Hf Hp).
    rewrite count_occ_flat_repeat. f_equal.
    unfold column_values. rewrite Hc.
    cbn [position String.eqb Ascii.eqb Bool.eqb].
    apply Permutation_count_occ.
    apply Permutation_map. apply shuffle_perm.
  - rewrite repeat_clientes_enough in Hp by exact Hf.
    inversion Hp; subst. lia.
Qed.

(** X2.  [repeat_clientes] neither invents nor loses a key: each key
    occurs in the pool as often as in [clientes], times the repetition
    factor when the table was inflated (once otherwise). *)
Theorem repeat_clientes_replicates_evenly (e : Engine)
    (clientes pool : DataFrame) (f : Z) (k : value) :
  columns clientes = ["id_usuario"] ->
  repeat_clientes e clientes f = inr pool ->
  count_occ string_dec (column_values "id_usuario" pool) k
  = Nat.mul
      (if count clientes <? f
       then Z.to_nat (repetition_factor f (count clientes)) else 1%nat)
      (count_occ string_dec (column_values "id_usuario" clientes) k).
Proof. exact (pool_count_occ e clientes pool f k). Qed.

Lemma repeat_clientes_replicates_evenly_witness :
  exists pool,
    repeat_clientes engine_zero clientes_ABC 10 = inr pool
    /\ count_occ string_dec (column_values "id_usuario" pool) "B" = 4%nat.
Proof.
  eexists. split; [reflexivity|].
  rewrite (repeat_clientes_replicates_evenly engine_zero clientes_ABC _ 10 "B"
             eq_refl eq_refl).
  reflexivity.
Defined.

End TransformationMore.

Section TransformationJoin.
Import Transformation Tables.



Lemma resolve_position (name : string) (df : DataFrame) (k : nat) :
  resolve name df = inr k -> k = position name (columns df).
Proof.
  unfold resolve.
  destruct (occurrences name (columns df)) as [|[|n]]; intros H;
    inversion H. reflexivity.
Qed.













Lemma table_found (tables : list (string * DataFrame)) (name : string)
    (df : DataFrame) :
  table tables name = inr df -> Main.assoc name tables = Some df.
Proof.
  unfold table. destruct (Main.assoc name tables); intros H; inversion H.
  reflexivity.
Qed.

(** X7.  When [load_tables] succeeds, [clientes] has the single column
    [id_usuario], with the row count and the keys of the stored table,
    and [transacoes_cartao] is the stored table as it is. *)
Theorem load_tables_shape (tables : list (string * DataFrame))
    (clientes transacoes_cartao : DataFrame) :
  load_tables tables = inr (clientes, transacoes_cartao) ->
  columns clientes = ["id_usuario"]
  /\ Main.assoc "transacoes_cartao" tables = Some transacoes_cartao
  /\ exists c,
       Main.assoc "clientes" tables = Some c
       /\ count clientes = count c
       /\ column_values "id_usuario" clientes = column_values "id_usuario" c.
Proof.
  unfold load_tables.
  destruct (table tables "clientes") as [err|c] eqn:Hc; [discriminate|].
  unfold selectExpr.
  destruct (resolve "id_usuario" c) as [err|k] eqn:Hk; [discriminate|].
  destruct (table tables "transacoes_cartao") as [err|t] eqn:Ht;
    [discriminate|].
  intros H. inversion H; subst; clear H.
  apply resolve_position in Hk.
  split; [reflexivity|]. split; [exact (table_found _ _ _ Ht)|].
  exists c. split; [exact (table_found _ _ _ Hc)|]. split.
  - unfold count. cbn [rows]. now rewrite length_map.
  - unfold column_values. cbn [rows columns position String.eqb Ascii.eqb
                                 Bool.eqb].
    rewrite map_map. cbn [nth]. now rewrite Hk.
Qed.

Lemma load_tables_shape_witness :
  exists clientes,
    load_tables tabelas_demo = inr (clientes, transacoes_2)
    /\ columns clientes = ["id_usuario"]
    /\ count clientes = 5.
Proof.
  eexists. split; [reflexivity|].
  destruct (load_tables_shape tabelas_demo _ transacoes_2 eq_refl)
    as (Hc & _ & c & Ha & Hn & _).
  split; [exact Hc|]. rewrite Hn. inversion Ha. reflexivity.
Defined.



End TransformationJoin.

(** * Further properties of [src/main.py] *)

Import Observations.

(** The list without its last event. *)
Ltac split_last :=
  lazymatch goal with
  | |- exists evs, ?l = evs ++ [_] => exists (removelast l); reflexivity
  end.

Ltac unfold_criar :=
  unfold criar_ou_atualizar_tabela, carregar_esquema, resolver_base_path,
    escrever_arquivos, escrever_tabela, tabela_existe, tableExists;
  cbv zeta.

Section MaterialisationOutcomes.
Variables (env : Env) (nome_tabela : string) (config : ConfigParser).

Lemma criar_errors_logged (st : state) :
  post (criar_ou_atualizar_tabela env nome_tabela config) st
    (fun r st' =>
       (forall e, r = inl e ->
          exists evs,
            added st st'
            = evs ++ [Log ERROR (ErroCriarOuAtualizar nome_tabela e)])
       /\ (r = inr tt -> forall m, ~ In (Log ERROR m) (added st st'))).
Proof.
  unfold_criar. run.
  all: split;
    [ intros e0 He; try discriminate He; injection He as <-;
      added_list; split_last
    | intros Hr; try discriminate Hr; intros m Hin; revert Hin;
      added_list; intros Hin; in_cases Hin ].
Qed.

Lemma criar_one_write (st : state) :
  post (criar_ou_atualizar_tabela env nome_tabela config) st
    (fun r st' =>
       (List.length (writes (added st st')) <= 1)%nat
       /\ (r = inr tt -> List.length (writes (added st st')) = 1%nat)).
Proof.
  unfold_criar. run.
  all: added_list; cbn [writes flat_map app List.length].
  all: split; [repeat constructor | intros Hr; try discriminate Hr; reflexivity].
Qed.

Lemma criar_catalog (st : state) :
  post (criar_ou_atualizar_tabela env nome_tabela config) st
    (fun r st' =>
       (forall e, r = inl e -> catalog st' = catalog st)
       /\ (r = inr tt ->
           getboolean_fallback config "DEFAULT" "apenas_arquivos" false
           = inr true ->
           catalog st' = catalog st)
       /\ (r = inr tt ->
           getboolean_fallback config "DEFAULT" "apenas_arquivos" false
           = inr false ->
           catalog st'
           = if mem nome_tabela (catalog st) then catalog st
             else nome_tabela :: catalog st)).
Proof.
  unfold_criar. run.
  all: cbn [catalog]; repeat split; intros; try discriminate; try reflexivity.
  all: match goal with H : mem _ _ = _ |- _ => rewrite H end; reflexivity.
Qed.


End MaterialisationOutcomes.

Section MaterialisationEdges.
Variables (env : Env) (nome_tabela : string) (config : ConfigParser).







End MaterialisationEdges.

(** X9.  When [criar_ou_atualizar_tabela] raises, the last record it
    leaves is the error record naming the table and carrying the very
    exception that is re-raised; when it returns, it has logged no error
    record at all. *)
Theorem errors_are_logged_and_reraised
    (env : Env) (nome_tabela : string) (config : ConfigParser)
    (st st' : state) (r : exn + unit) :
  criar_ou_atualizar_tabela env nome_tabela config st = (r, st') ->
  (forall e, r = inl e ->
     exists evs,
       added st st'
       = evs ++ [Log ERROR (ErroCriarOuAtualizar nome_tabela e)])
  /\ (r = inr tt -> forall m, ~ In (Log ERROR m) (added st st')).
Proof. intros H. exact (criar_errors_logged env nome_tabela config st _ _ H). Qed.

Lemma errors_are_logged_and_reraised_witness :
  exists evs,
    added (start [])
      (snd (criar_ou_atualizar_tabela env_gcs "clientes" config_gcs (start [])))
    = evs ++ [Log ERROR
                (ErroCriarOuAtualizar "clientes"
                   (ValueError "Armazenamento nao suportado: GCS"))].
Proof.
  destruct (errors_are_logged_and_reraised env_gcs "clientes" config_gcs
              (start []) _ _ eq_refl) as [H _].
  exact (H _ eq_refl).
Defined.

(** X10.  One call of [criar_ou_atualizar_tabela] asks the engine for at
    most one write, and for exactly one when it returns. *)
Theorem at_most_one_write
    (env : Env) (nome_tabela : string) (config : ConfigParser)
    (st st' : state) (r : exn + unit) :
  criar_ou_atualizar_tabela env nome_tabela config st = (r, st') ->
  (List.length (writes (added st st')) <= 1)%nat
  /\ (r = inr tt -> List.length (writes (added st st')) = 1%nat).
Proof. intros H. exact (criar_one_write env nome_tabela config st _ _ H). Qed.

Lemma at_most_one_write_witness :
  List.length
    (writes (added (start [])
               (snd (criar_ou_atualizar_tabela env_catalog "clientes"
                       config_catalog (start [])))))
  = 1%nat.
Proof.
  destruct (at_most_one_write env_catalog "clientes" config_catalog
              (start []) _ _ eq_refl) as [_ H].
  exact (H eq_refl).
Defined.

(** X11.  A call that raises leaves the catalog as it was, and so does a
    call that writes files; a call that returns after writing to the
    catalog leaves the table registered, and no other table added. *)
Theorem catalog_after_materialisation
    (env : Env) (nome_tabela : string) (config : ConfigParser)
    (st st' : state) (r : exn + unit) :
  criar_ou_atualizar_tabela env nome_tabela config st = (r, st') ->
  (forall e, r = inl e -> catalog st' = catalog st)
  /\ (r = inr tt ->
      getboolean_fallback config "DEFAULT" "apenas_arquivos" false
      = inr true ->
      catalog st' = catalog st)
  /\ (r = inr tt ->
      getboolean_fallback config "DEFAULT" "apenas_arquivos" false
      = inr false ->
      catalog st'
      = if mem nome_tabela (catalog st) then catalog st
        else nome_tabela :: catalog st).
Proof. intros H. exact (criar_catalog env nome_tabela config st _ _ H). Qed.

Lemma catalog_after_materialisation_witness :
  catalog (snd (criar_ou_atualizar_tabela env_catalog "clientes"
                  config_catalog (start ["legado"])))
  = ["clientes"; "legado"]
  /\ catalog (snd (criar_ou_atualizar_tabela env_gcs "clientes"
                     config_gcs (start ["legado"])))
     = ["legado"].
Proof.
  split.
  - destruct (catalog_after_materialisation env_catalog "clientes"
                config_catalog (start ["legado"]) _ _ eq_refl)
      as (_ & _ & H).
    exact (H eq_refl eq_refl).
  - destruct (catalog_after_materialisation env_gcs "clientes"
                config_gcs (start ["legado"]) _ _ eq_refl)
      as (H & _).
    exact (H _ eq_refl).
Defined.









Section ExecutionDate.

Lemma createDataFrame_shape (dados : list row) (esquema : list string)
    (df : DataFrame) :
  createDataFrame dados esquema = inr df ->
  columns df = esquema
  /\ forall r, In r (rows df) -> List.length r = List.length esquema.
Proof.
  unfold createDataFrame.
  match goal with
  | |- context [forallb ?f dados] => destruct (forallb f dados) eqn:Hf
  end; intros H; inversion H; subst; clear H.
  split; [reflexivity|]. intros r Hr. cbn [rows] in Hr.
  rewrite forallb_forall in Hf. apply Nat.eqb_eq. exact (Hf r Hr).
Qed.

Lemma replace_col_length (name : string) (v : value) (cols : list string)
    (r : row) :
  List.length (replace_col name v cols r) = List.length r.
Proof.
  revert r. induction cols as [|c cs IH]; intros [|x xs];
    cbn [replace_col List.length]; try reflexivity.
  now rewrite IH.
Qed.

Lemma replace_col_at (name : string) (v : value) (cols : list string)
    (r : row) :
  List.length r = List.length cols ->
  mem name cols = true ->
  nth_error (replace_col name v cols r) (position name cols) = Some v.
Proof.
  revert r. induction cols as [|c cs IH]; intros [|x xs] Hl Hm;
    cbn [List.length] in Hl; try discriminate.
  cbn [replace_col position]. unfold mem in Hm. cbn [existsb] in Hm.
  rewrite String.eqb_sym in Hm.
  destruct (String.eqb c name); [reflexivity|].
  cbn [orb] in Hm. cbn [nth_error]. apply IH; [lia | exact Hm].
Qed.

Lemma position_absent (name : string) (cols : list string) :
  mem name cols = false ->
  position name (cols ++ [name]) = List.length cols.
Proof.
  induction cols as [|c cs IH]; cbn [app position List.length mem existsb].
  - now rewrite String.eqb_refl.
  - unfold mem in *. cbn [existsb]. rewrite String.eqb_sym.
    destruct (String.eqb c name); cbn [orb]; [discriminate|].
    intros H. now rewrite IH.
Qed.

Lemma mem_app_last (name : string) (cols : list string) :
  mem name (cols ++ [name]) = true.
Proof.
  unfold mem. rewrite existsb_app. cbn [existsb].
  rewrite String.eqb_refl. now rewrite orb_true_r.
Qed.

(** After [withColumn] every row of a well-formed frame holds the value
    in the column of that name. *)
Lemma withColumn_value (name : string) (v : value) (df : DataFrame) :
  (forall r, In r (rows df) -> List.length r = List.length (columns df)) ->
  let df' := withColumn name v df in
  mem name (columns df') = true
  /\ forall r, In r (rows df') ->
       List.length r = List.length (columns df')
       /\ nth_error r (position name (columns df')) = Some v.
Proof.
  intros Hw. unfold withColumn.
  destruct (mem name (columns df)) eqn:Hm; cbn [columns rows].
  - split; [exact Hm|]. intros r Hr.
    apply in_map_iff in Hr. destruct Hr as (r0 & <- & Hr0).
    split.
    + rewrite replace_col_length. now apply Hw.
    + apply replace_col_at; [now apply Hw | exact Hm].
  - split; [apply mem_app_last|]. intros r Hr.
    apply in_map_iff in Hr. destruct Hr as (r0 & <- & Hr0).
    rewrite !length_app, (Hw r0 Hr0). split; [reflexivity|].
    rewrite (position_absent _ _ Hm), <- (Hw r0 Hr0).
    rewrite nth_error_app2 by lia. now rewrite Nat.sub_diag.
Qed.

(** X16.  Every data frame handed to a writer has a [data_execucao]
    column, and every one of its rows has one value per column and the
    date of the run in that column. *)
Theorem written_rows_carry_execution_date
    (env : Env) (nome_tabela : string) (config : ConfigParser)
    (st st' : state) (r : exn + unit) (w : write_call) :
  criar_ou_atualizar_tabela env nome_tabela config st = (r, st') ->
  In (Call (Write w)) (added st st') ->
  mem "data_execucao" (columns (w_df w)) = true
  /\ forall x, In x (rows (w_df w)) ->
       List.length x = List.length (columns (w_df w))
       /\ nth_error x (position "data_execucao" (columns (w_df w)))
          = Some (current_date env).
Proof.
  intros Hrun Hin.
  destruct (criar_ou_atualizar_tabela_writes env nome_tabela config st
              _ _ Hrun w Hin)
    as (esq & n & p & b & nb & ap & dados & df
        & _ & _ & _ & _ & _ & _ & _ & Hdf & Hw & _).
  rewrite Hw. apply withColumn_value.
  destruct (createDataFrame_shape _ _ _ Hdf) as [Hc Hr].
  rewrite Hc. exact Hr.
Qed.

Lemma written_rows_carry_execution_date_witness :
  mem "data_execucao" (columns (w_df write_transacoes_append)) = true
  /\ nth_error ["a"; "b"; "c"; "2024-01-01"]
       (position "data_execucao" (columns (w_df write_transacoes_append)))
     = Some "2024-01-01".
Proof.
  assert (Hin : In (Call (Write write_transacoes_append))
                  (added (start ["transacoes_cartao"])
                     (snd (criar_ou_atualizar_tabela env_catalog
                             "transacoes_cartao" config_catalog
                             (start ["transacoes_cartao"])))))
    by (vm_compute; repeat (first [left; reflexivity | right])).
  destruct (written_rows_carry_execution_date env_catalog
              "transacoes_cartao" config_catalog
              (start ["transacoes_cartao"]) _ _
              write_transacoes_append eq_refl Hin) as [Hm Hr].
  split; [exact Hm|].
  apply (Hr ["a"; "b"; "c"; "2024-01-01"]). left. reflexivity.
Defined.


End ExecutionDate.

Section StepRules.
Variable R : state -> state -> Prop.
Hypothesis R_refl : forall st, R st st.
Hypothesis R_trans : forall a b c, R a b -> R b c -> R a c.

Lemma steps_ret {A} (a : A) : steps R (ret a).
Proof. intros st r st' E. inversion E; subst. apply R_refl. Qed.

Lemma steps_raise {A} (e : exn) : steps R (@raise A e).
Proof. intros st r st' E. inversion E; subst. apply R_refl. Qed.

Lemma steps_lift {A} (x : exn + A) : steps R (lift x).
Proof. destruct x; [apply steps_raise | apply steps_ret]. Qed.

Lemma steps_gets {A} (f : state -> A) : steps R (gets f).
Proof. intros st r st' E. inversion E; subst. apply R_refl. Qed.

Lemma steps_log (lvl : level) (msg : message) :
  (forall st, R st (mkState (catalog st) (trace st ++ [Log lvl msg]))) ->
  steps R (log lvl msg).
Proof. intros H st r st' E. inversion E; subst. apply H. Qed.

Lemma steps_spark (env : Env) (c : call) :
  (forall st, R st (mkState (catalog st) (trace st ++ [Call c]))) ->
  (forall st, R st (mkState (effect c (catalog st)) (trace st ++ [Call c]))) ->
  steps R (spark env c).
Proof.
  intros H1 H2 st r st' E. unfold spark in E.
  destruct (engine_fails env st c); inversion E; subst; auto.
Qed.

Lemma steps_bind {A B} (m : M A) (k : A -> M B) :
  steps R m -> (forall a, steps R (k a)) -> steps R (bind m k).
Proof.
  intros Hm Hk st r st' E. unfold bind in E.
  destruct (m st) as [[e|a] st1] eqn:Em; pose proof (Hm _ _ _ Em) as H1.
  - inversion E; subst. exact H1.
  - exact (R_trans _ _ _ H1 (Hk a _ _ _ E)).
Qed.

Lemma steps_try_except {A} (m : M A) (h : exn -> M A) :
  steps R m -> (forall e, steps R (h e)) -> steps R (try_except m h).
Proof.
  intros Hm Hh st r st' E. unfold try_except in E.
  destruct (m st) as [[e|a] st1] eqn:Em; pose proof (Hm _ _ _ Em) as H1.
  - exact (R_trans _ _ _ H1 (Hh e _ _ _ E)).
  - inversion E; subst. exact H1.
Qed.

Lemma steps_for_each {A} (xs : list A) (body : A -> M unit) :
  (forall x, steps R (body x)) -> steps R (for_each xs body).
Proof.
  intros Hb. induction xs as [|x xs IH]; cbn [for_each].
  - apply steps_ret.
  - apply steps_bind; [apply Hb | intros _; exact IH].
Qed.

End StepRules.

Section Relations.

Lemma adds_refl (P : event -> Prop) (st : state) : adds P st st.
Proof. exists []. rewrite app_nil_r. split; constructor. Qed.

Lemma adds_trans (P : event -> Prop) (a b c : state) :
  adds P a b -> adds P b c -> adds P a c.
Proof.
  intros (e1 & H1 & F1) (e2 & H2 & F2). exists (e1 ++ e2). split.
  - rewrite H2, H1. now rewrite app_assoc.
  - apply Forall_app. split; assumption.
Qed.

Lemma adds_event (P : event -> Prop) (ev : event) (st : state)
    (c : list string) :
  P ev -> adds P st (mkState c (trace st ++ [ev])).
Proof. intros H. exists [ev]. split; [reflexivity | repeat constructor; exact H]. Qed.

Lemma adds_added (P : event -> Prop) (st st' : state) :
  adds P st st' -> Forall P (added st st').
Proof. intros (evs & H & F). now rewrite (added_app _ _ _ H). Qed.

Lemma unchanged_refl (P : event -> Prop) (st : state) : unchanged P st st.
Proof. split; [reflexivity | apply adds_refl]. Qed.

Lemma unchanged_trans (P : event -> Prop) (a b c : state) :
  unchanged P a b -> unchanged P b c -> unchanged P a c.
Proof.
  intros [C1 A1] [C2 A2]. split; [congruence | eapply adds_trans; eassumption].
Qed.

Lemma unchanged_event (P : event -> Prop) (ev : event) (st : state) :
  P ev -> unchanged P st (mkState (catalog st) (trace st ++ [ev])).
Proof. intros H. split; [reflexivity | now apply adds_event]. Qed.





End Relations.

(** One step of a proof of [steps R m]; [rf] and [tr] are the proofs that
    [R] is reflexive and transitive, [leaf] closes the goals about single
    events. *)
Ltac step_rule rf tr leaf :=
  lazymatch goal with
  | |- steps ?R (Main.bind _ _) => apply (steps_bind R tr); [|intros ?]
  | |- steps ?R (Main.try_except _ _) =>
      apply (steps_try_except R tr); [|intros ?]
  | |- steps ?R (Main.ret _) => apply (steps_ret R rf)
  | |- steps ?R (Main.raise _) => apply (steps_raise R rf)
  | |- steps ?R (Main.lift _) => apply (steps_lift R rf)
  | |- steps ?R (Main.gets _) => apply (steps_gets R rf)
  | |- steps ?R (Main.log _ _) => apply steps_log; intros ?; leaf
  | |- steps ?R (Main.spark _ _) => apply steps_spark; intros ?; leaf
  | |- steps _ (if ?b then _ else _) => destruct b
  | |- steps _ (match ?x with _ => _ end) => destruct x
  end.


Section MainRun.
Variable env : Env.



Lemma preparar_sessao_unchanged :
  steps (unchanged startup_event) (preparar_sessao env).
Proof.
  unfold preparar_sessao, carregar_configuracao. cbv zeta.
  repeat step_rule (unchanged_refl startup_event)
    (unchanged_trans startup_event)
    ltac:(apply unchanged_event; split; intros t; discriminate).
Qed.

Lemma processadas_app (a b : list event) :
  processadas (a ++ b) = processadas a ++ processadas b.
Proof. unfold processadas. apply flat_map_app. Qed.

Lemma processadas_none (evs : list event) :
  Forall not_processando evs -> processadas evs = [].
Proof.
  induction 1 as [|ev evs H _ IH]; [reflexivity|].
  cbn [processadas flat_map]. fold (processadas evs). rewrite IH.
  destruct ev as [c|lvl msg]; [reflexivity|].
  destruct lvl; try reflexivity. destruct msg; try reflexivity.
  exfalso. exact (H _ eq_refl).
Qed.

Lemma writes_app (a b : list event) : writes (a ++ b) = writes a ++ writes b.
Proof. unfold writes. apply flat_map_app. Qed.

Lemma writes_none (evs : list event) :
  Forall not_write evs -> writes evs = [].
Proof.
  induction 1 as [|ev evs H _ IH]; [reflexivity|].
  cbn [writes flat_map]. fold (writes evs). rewrite IH.
  destruct ev as [c|lvl msg]; [|reflexivity].
  destruct c; try reflexivity. exfalso. exact (H _ eq_refl).
Qed.




Lemma failed_startup st :
  fst (main env st) = 1 ->
  processadas (added st (snd (main env st))) = []
  /\ writes (added st (snd (main env st))) = []
  /\ catalog (snd (main env st)) = catalog st.
Proof.
  pose proof (main_exit_status env st) as Hs.
  unfold main, main_try, bind in *.
  destruct (preparar_sessao env st) as [[e|config] s1] eqn:Hp.
  - intros _. cbn [snd log trace catalog].
    destruct (preparar_sessao_unchanged _ _ _ Hp) as [Hc (e1 & H1 & F1)].
    rewrite H1, <- app_assoc, added_mk.
    rewrite processadas_app, writes_app.
    rewrite processadas_none, writes_none.
    + split; [reflexivity | split; [reflexivity | exact Hc]].
    + eapply Forall_impl; [|exact F1]. intros a [_ Ha]. exact Ha.
    + eapply Forall_impl; [|exact F1]. intros a [Ha _]. exact Ha.
  - intros H. rewrite Hs in H. discriminate.
Qed.


End MainRun.

Ltac all_files_only :=
  repeat first
    [ apply Forall_nil
    | apply Forall_cons;
      [cbn [files_only w_sink]; first [exact I | eexists; reflexivity]|] ].

Section FilesMode.
Variable env : Env.

Lemma criar_files_only_post nome_tabela config st :
  post (criar_ou_atualizar_tabela env nome_tabela config) st
    (fun r st' =>
       getboolean_fallback config "DEFAULT" "apenas_arquivos" false
       = inr true ->
       catalog st' = catalog st /\ Forall files_only (added st st')).
Proof.
  unfold_criar. run.
  all: intros Hflag; try discriminate Hflag.
  all: split; [reflexivity | added_list; all_files_only].
Qed.

Lemma criar_files_only nome_tabela config :
  getboolean_fallback config "DEFAULT" "apenas_arquivos" false = inr true ->
  steps (unchanged files_only)
    (criar_ou_atualizar_tabela env nome_tabela config).
Proof.
  intros Hflag st r st' E.
  destruct (criar_files_only_post nome_tabela config st r st' E Hflag)
    as [Hc Hf].
  split; [exact Hc|].
  destruct (emits_criar_ou_atualizar_tabela env nome_tabela config _ _ _ E)
    as (evs & Ht & _).
  exists evs. split; [exact Ht|]. now rewrite <- (added_app _ _ _ Ht).
Qed.

Lemma preparar_files_only_post config st :
  post (preparar_sessao env) st
    (fun r st' =>
       config_file env "/app/mount/config.ini" = Contents config ->
       getboolean_fallback config "DEFAULT" "apenas_arquivos" false
       = inr true ->
       catalog st' = catalog st
       /\ Forall files_only (added st st')
       /\ forall c, r = inr c -> c = config).
Proof.
  unfold preparar_sessao, carregar_configuracao. cbv zeta. run.
  all: intros Hc Hflag; try discriminate Hc; injection Hc as ->.
  all: repeat match goal with
              | H : negb ?b = _ |- _ =>
                  destruct b; cbn [negb] in H; try discriminate H; clear H
              end.
  all: try congruence.
  all: split; [reflexivity|split; [added_list; all_files_only|]].
  all: intros c0 Hr; try discriminate Hr; injection Hr as <-; reflexivity.
Qed.

Lemma processar_files_only config tabela :
  getboolean_fallback config "DEFAULT" "apenas_arquivos" false = inr true ->
  steps (unchanged files_only) (processar_tabela env config tabela).
Proof.
  intros Hflag. unfold processar_tabela. cbv zeta.
  apply (steps_bind _ (unchanged_trans files_only)).
  - apply steps_log. intros s. apply unchanged_event. exact I.
  - intros _. destruct (mem (strip tabela) (sections config)).
    + apply (steps_try_except _ (unchanged_trans files_only)).
      * apply criar_files_only. exact Hflag.
      * intros e. apply steps_log. intros s. apply unchanged_event. exact I.
    + apply steps_log. intros s. apply unchanged_event. exact I.
Qed.

Lemma main_files_only config st :
  config_file env "/app/mount/config.ini" = Contents config ->
  getboolean_fallback config "DEFAULT" "apenas_arquivos" false = inr true ->
  catalog (snd (main env st)) = catalog st
  /\ Forall files_only (added st (snd (main env st))).
Proof.
  intros Hc Hflag. unfold main, main_try, bind.
  destruct (preparar_sessao env st) as [[e|c] s1] eqn:Hp;
    destruct (preparar_files_only_post config st _ _ Hp Hc Hflag)
      as (C1 & F1 & Hcfg);
    destruct (emits_preparar_sessao env _ _ _ Hp) as (e1 & H1 & _);
    rewrite (added_app _ _ _ H1) in F1.
  - cbn [snd log catalog trace]. split; [exact C1|].
    rewrite H1, <- app_assoc, added_mk. apply Forall_app. split; [exact F1|].
    all_files_only.
  - rewrite (Hcfg c eq_refl) in *.
    destruct (processar_tabelas_returns env config s1) as [s2 Hl].
    rewrite Hl. cbn [snd].
    assert (U : unchanged files_only s1 s2).
    { revert Hl. unfold processar_tabelas. cbv zeta.
      destruct (split "," (proxy_get_or config "DEFAULT" "tabelas" ""));
        [intros Hl; inversion Hl; apply unchanged_event; exact I|].
      apply (steps_for_each _ (unchanged_refl files_only)
               (unchanged_trans files_only)).
      intros t. now apply processar_files_only. }
    destruct U as [C2 (e2 & H2 & F2)]. split; [congruence|].
    rewrite (added_app st s2 (e1 ++ e2)).
    + apply Forall_app. split; assumption.
    + rewrite H2, H1. now rewrite app_assoc.
Qed.

End FilesMode.

Section SecondRun.


End SecondRun.

Section Names.








End Names.





(** X19.  A run that exits with status 1 has announced no table, asked
    for no write, and left the catalog as it was. *)
Theorem failed_startup_does_nothing (env : Env) (st : state) :
  fst (main env st) = 1 ->
  processadas (added st (snd (main env st))) = []
  /\ writes (added st (snd (main env st))) = []
  /\ catalog (snd (main env st)) = catalog st.
Proof. exact (failed_startup env st). Qed.

Lemma failed_startup_does_nothing_witness :
  fst (main env_bad_flag (start ["legado"])) = 1
  /\ writes (added (start ["legado"])
               (snd (main env_bad_flag (start ["legado"]))))
     = []
  /\ catalog (snd (main env_bad_flag (start ["legado"]))) = ["legado"].
Proof.
  split; [reflexivity|].
  exact (proj2 (failed_startup_does_nothing env_bad_flag (start ["legado"])
                  eq_refl)).
Defined.



(** X21.  With [apenas_arquivos] set, a run of [main] leaves the catalog
    alone: it issues no SQL statement and no [tableExists], every write
    goes to a path, and the catalog is as it was. *)
Theorem files_mode_leaves_catalog
    (env : Env) (config : ConfigParser) (st : state) :
  config_file env "/app/mount/config.ini" = Contents config ->
  getboolean_fallback config "DEFAULT" "apenas_arquivos" false = inr true ->
  catalog (snd (main env st)) = catalog st
  /\ Forall files_only (added st (snd (main env st))).
Proof. exact (main_files_only env config st). Qed.

Lemma files_mode_leaves_catalog_witness :
  catalog (snd (main env_files (start ["legado"]))) = ["legado"]
  /\ Forall files_only
       (added (start ["legado"]) (snd (main env_files (start ["legado"])))).
Proof.
  exact (files_mode_leaves_catalog env_files config_files (start ["legado"])
           eq_refl eq_refl).
Defined.


